(** * ottermap: the map view component (src/components/home/index.tsx)

    A shallow embedding of [MapComponent]: the React state of the component,
    the two effects with their cleanups, the measure handler and the rendered
    controls, over a small object store for the rendering engine's objects
    (Map, VectorSource, Draw, Feature), which the component shares by
    reference.

    The spherical helpers [getArea] and [getLength] of the rendering engine
    and the number formatter [millify] are external collaborators: the
    development is parametric in them. *)

From stdpp Require Import base decidable option list strings.
From Stdlib Require Import ZArith DecimalString.

(** ** Data model *)

(** [type GeometryType = "Point" | "LineString" | "Polygon" | "None"]
    (index.tsx, line 19). *)
Module GeometryType.

Inductive t := Point | LineString | Polygon | None.

#[global] Instance eq_dec : EqDecision t.
Proof. solve_decision. Defined.

End GeometryType.

(** The geometry classes of the rendering engine ([ol/geom/*]); the
    component tests [instanceof Polygon] and [instanceof LineString]. *)
Inductive GeometryClass :=
  | Point | LineString | LinearRing | Polygon
  | MultiPoint | MultiLineString | MultiPolygon
  | GeometryCollection | Circle.

#[export] Instance GeometryClass_eq_dec : EqDecision GeometryClass.
Proof. solve_decision. Defined.

(** The container element [mapRef.current], as a DOM node id. *)
Definition HTMLDivElement := nat.

(** [new OSM()] is the only tile source. *)
Inductive TileSource := OSM.

(** A layer holds its source: the tile source by value, the vector source
    by reference (a handle into the store of vector sources). *)
Inductive Layer :=
  | TileLayer (source : TileSource)
  | VectorLayer (source : nat).

Record View := { center : list Z; zoom : Z }.

(** A Map object: its target, layers, view and the Draw interactions
    attached to it (handles into the store of Draw objects, in the order
    they were added).  The engine's built-in interactions are not Draw
    interactions and are left out. *)
Record Map := {
  target : option HTMLDivElement;
  layers : list Layer;
  view : View;
  interactions : list nat }.

(** Listeners the component registers on a Draw object: the only one is
    [(event) => setLastFeature(event.feature)] (line 80-82). *)
Inductive Listener := SetLastFeature.

(** A Draw object: [new Draw({ source, type })] and its drawend listeners. *)
Record Draw := {
  draw_source : nat;
  draw_type : GeometryType.t;
  drawend : list Listener }.

(** A VectorSource object: [new VectorSource({ wrapX: false })] and the
    features it holds (handles into the store of Feature objects, in the
    order they were added). *)
Record VectorSource := {
  wrapX : bool;
  getFeatures : list nat }.

(** Calls on Map objects, recorded in the order they happen. *)
Inductive Call :=
  | AddInteraction (m d : nat)
  | RemoveInteraction (m d : nat)
  | SetTarget (m : nat) (el : option HTMLDivElement).

#[export] Instance Call_eq_dec : EqDecision Call.
Proof. solve_decision. Defined.

(** The React state of the component (lines 23-27).  Objects are held by
    handle, so that [Object.is] on two state values is equality here. *)
Record State := {
  map : option nat;
  source : nat;
  drawType : GeometryType.t;
  lastFeature : option nat;
  measurement : string }.

#[export] Instance State_eq_dec : EqDecision State.
Proof. solve_decision. Defined.

(** The controls the component renders (lines 116-130). *)
Record Dom := {
  select_options : list GeometryType.t;
  select_value : GeometryType.t;
  button : option string;
  paragraph : option string }.

Section MapComponent.

(** JavaScript numbers (IEEE doubles) are kept abstract. *)
Context {number : Type}.

Definition Coordinate := list number.

Record Geometry := {
  constructor : GeometryClass;
  coordinates : list Coordinate }.

(** [geometry instanceof C], where [geometry] may be [undefined]. *)
Definition instanceof (geometry : option Geometry) (C : GeometryClass) : bool :=
  match geometry with
  | Some g => bool_decide (constructor g = C)
  | None => false
  end.

(** A Feature object; [getGeometry()] may return [undefined]. *)
Record Feature := { getGeometry : option Geometry }.

(** The external collaborators: [getArea] and [getLength] of [ol/sphere]
    and [millify]. *)
Class Engine := {
  getArea : Geometry -> number;
  getLength : Geometry -> number;
  millify : number -> string }.

Context {engine : Engine}.

(** The world: the component instance (mounted flag, the state the current
    closures were rendered with, the state after the queued updates, the
    cleanups the effects returned) and the engine's object stores. *)
Record World := {
  mounted : bool;
  rendered : State;
  queued : State;
  initCleanup : option nat;
  drawCleanup : option (nat * nat);
  maps : list Map;
  sources : list VectorSource;
  draws : list Draw;
  features : list Feature;
  log : list Call }.

Definition set_mounted (b : bool) (w : World) : World :=
  {| mounted := b; rendered := rendered w; queued := queued w;
     initCleanup := initCleanup w; drawCleanup := drawCleanup w;
     maps := maps w; sources := sources w; draws := draws w;
     features := features w; log := log w |}.

Definition set_rendered (s : State) (w : World) : World :=
  {| mounted := mounted w; rendered := s; queued := queued w;
     initCleanup := initCleanup w; drawCleanup := drawCleanup w;
     maps := maps w; sources := sources w; draws := draws w;
     features := features w; log := log w |}.

Definition set_queued (s : State) (w : World) : World :=
  {| mounted := mounted w; rendered := rendered w; queued := s;
     initCleanup := initCleanup w; drawCleanup := drawCleanup w;
     maps := maps w; sources := sources w; draws := draws w;
     features := features w; log := log w |}.

Definition set_initCleanup (c : option nat) (w : World) : World :=
  {| mounted := mounted w; rendered := rendered w; queued := queued w;
     initCleanup := c; drawCleanup := drawCleanup w;
     maps := maps w; sources := sources w; draws := draws w;
     features := features w; log := log w |}.

Definition set_drawCleanup (c : option (nat * nat)) (w : World) : World :=
  {| mounted := mounted w; rendered := rendered w; queued := queued w;
     initCleanup := initCleanup w; drawCleanup := c;
     maps := maps w; sources := sources w; draws := draws w;
     features := features w; log := log w |}.

Definition set_maps (ms : list Map) (w : World) : World :=
  {| mounted := mounted w; rendered := rendered w; queued := queued w;
     initCleanup := initCleanup w; drawCleanup := drawCleanup w;
     maps := ms; sources := sources w; draws := draws w;
     features := features w; log := log w |}.

Definition set_sources (ss : list VectorSource) (w : World) : World :=
  {| mounted := mounted w; rendered := rendered w; queued := queued w;
     initCleanup := initCleanup w; drawCleanup := drawCleanup w;
     maps := maps w; sources := ss; draws := draws w;
     features := features w; log := log w |}.

Definition set_draws (ds : list Draw) (w : World) : World :=
  {| mounted := mounted w; rendered := rendered w; queued := queued w;
     initCleanup := initCleanup w; drawCleanup := drawCleanup w;
     maps := maps w; sources := sources w; draws := ds;
     features := features w; log := log w |}.

Definition set_features (fs : list Feature) (w : World) : World :=
  {| mounted := mounted w; rendered := rendered w; queued := queued w;
     initCleanup := initCleanup w; drawCleanup := drawCleanup w;
     maps := maps w; sources := sources w; draws := draws w;
     features := fs; log := log w |}.

Definition record (c : Call) (w : World) : World :=
  {| mounted := mounted w; rendered := rendered w; queued := queued w;
     initCleanup := initCleanup w; drawCleanup := drawCleanup w;
     maps := maps w; sources := sources w; draws := draws w;
     features := features w; log := log w ++ [c] |}.

(** ** The rendering engine's objects *)

(** [new VectorSource({ wrapX: false })]: a fresh, empty source. *)
Definition new_VectorSource (w : World) : nat * World :=
  (length (sources w),
   set_sources (sources w ++ [{| wrapX := false; getFeatures := [] |}]) w).

(** [new Map({ target, layers, view })]. *)
Definition new_Map (el : HTMLDivElement) (ls : list Layer) (v : View)
    (w : World) : nat * World :=
  (length (maps w),
   set_maps (maps w ++ [{| target := Some el; layers := ls; view := v;
                           interactions := [] |}]) w).

(** [new Draw({ source, type })]. *)
Definition new_Draw (src : nat) (type : GeometryType.t) (w : World)
    : nat * World :=
  (length (draws w),
   set_draws (draws w ++ [{| draw_source := src; draw_type := type;
                             drawend := [] |}]) w).

(** [new Feature(geometry)]. *)
Definition new_Feature (g : Geometry) (w : World) : nat * World :=
  (length (features w),
   set_features (features w ++ [{| getGeometry := Some g |}]) w).

(** [map.addInteraction(d)]: pushes [d] on the map's interactions. *)
Definition addInteraction (m d : nat) (w : World) : World :=
  record (AddInteraction m d)
    (set_maps (alter (fun M => {| target := target M; layers := layers M;
                                  view := view M;
                                  interactions := interactions M ++ [d] |})
                     m (maps w)) w).

(** Removal of the first occurrence of an object from a collection. *)
Fixpoint remove_first (d : nat) (l : list nat) : list nat :=
  match l with
  | [] => []
  | x :: l' => if bool_decide (x = d) then l' else x :: remove_first d l'
  end.

(** [map.removeInteraction(d)]. *)
Definition removeInteraction (m d : nat) (w : World) : World :=
  record (RemoveInteraction m d)
    (set_maps (alter (fun M => {| target := target M; layers := layers M;
                                  view := view M;
                                  interactions :=
                                    remove_first d (interactions M) |})
                     m (maps w)) w).

(** [map.setTarget(el)]. *)
Definition setTarget (m : nat) (el : option HTMLDivElement) (w : World)
    : World :=
  record (SetTarget m el)
    (set_maps (alter (fun M => {| target := el; layers := layers M;
                                  view := view M;
                                  interactions := interactions M |})
                     m (maps w)) w).

(** [d.on("drawend", l)]. *)
Definition on_drawend (d : nat) (l : Listener) (w : World) : World :=
  set_draws (alter (fun D => {| draw_source := draw_source D;
                                draw_type := draw_type D;
                                drawend := drawend D ++ [l] |})
                   d (draws w)) w.

(** [source.addFeature(f)]. *)
Definition addFeature (src f : nat) (w : World) : World :=
  set_sources (alter (fun S => {| wrapX := wrapX S;
                                  getFeatures := getFeatures S ++ [f] |})
                     src (sources w)) w.

(** A Draw interaction receives the user's gestures only while it is attached
    to a map that has a target. *)
Definition attached (d : nat) (w : World) : bool :=
  existsb (fun M => bool_decide (is_Some (target M))
                    && bool_decide (d ∈ interactions M))
          (maps w).

(** All Draw interactions attached to some map, in store order. *)
Definition attached_draws (w : World) : list nat :=
  concat (interactions <$> maps w).

(** The geometry a Draw interaction of a given type builds from the sketched
    coordinates: a geometry of that same kind (a Point takes the one
    position sketched). *)
Definition sketchGeometry (type : GeometryType.t) (cs : list Coordinate)
    : option Geometry :=
  match type with
  | GeometryType.Point =>
      Some {| constructor := Point; coordinates := take 1 cs |}
  | GeometryType.LineString =>
      Some {| constructor := LineString; coordinates := cs |}
  | GeometryType.Polygon =>
      Some {| constructor := Polygon; coordinates := cs |}
  | GeometryType.None => None
  end.

(** ** The component *)

Definition setMap (m : option nat) (w : World) : World :=
  set_queued {| map := m; source := source (queued w);
                drawType := drawType (queued w);
                lastFeature := lastFeature (queued w);
                measurement := measurement (queued w) |} w.

Definition setDrawType (t : GeometryType.t) (w : World) : World :=
  set_queued {| map := map (queued w); source := source (queued w);
                drawType := t;
                lastFeature := lastFeature (queued w);
                measurement := measurement (queued w) |} w.

Definition setLastFeature (f : option nat) (w : World) : World :=
  set_queued {| map := map (queued w); source := source (queued w);
                drawType := drawType (queued w);
                lastFeature := f;
                measurement := measurement (queued w) |} w.

Definition setMeasurement (s : string) (w : World) : World :=
  set_queued {| map := map (queued w); source := source (queued w);
                drawType := drawType (queued w);
                lastFeature := lastFeature (queued w);
                measurement := s |} w.

(** The listeners of a Draw object, run on its drawend event. *)
Definition run_listener (f : nat) (l : Listener) (w : World) : World :=
  match l with
  | SetLastFeature => setLastFeature (Some f) w
  end.

(** The user completes a sketch with Draw interaction [d]: the interaction
    builds the feature, dispatches drawend to its listeners and adds the
    feature to its source.  Nothing happens when [d] is not attached. *)
Definition finishDrawing (d : nat) (cs : list Coordinate) (w : World)
    : World :=
  if attached d w then
    match draws w !! d with
    | Some D =>
        match sketchGeometry (draw_type D) cs with
        | Some g =>
            let '(f, w) := new_Feature g w in
            let w := foldl (fun w l => run_listener f l w) w (drawend D) in
            addFeature (draw_source D) f w
        | None => w
        end
    | None => w
    end
  else w.

(** The first effect (lines 33-61): creates the map, stores it in state,
    and returns the cleanup that unsets the map's target. *)
Definition initEffect (el : HTMLDivElement) (w : World) : World :=
  let rasterLayer := TileLayer OSM in
  let vectorLayer := VectorLayer (source (rendered w)) in
  let '(newMap, w) :=
    new_Map el [rasterLayer; vectorLayer]
            {| center := [-11000000; 4600000]%Z; zoom := 4 |} w in
  let w := setMap (Some newMap) w in
  set_initCleanup (Some newMap) w.

(** The cleanup of the first effect: [newMap.setTarget(undefined)]. *)
Definition run_initCleanup (w : World) : World :=
  match initCleanup w with
  | Some newMap => set_initCleanup None (setTarget newMap None w)
  | None => w
  end.

(** The second effect (lines 67-88), with dependencies
    [map, drawType, source]. *)
Definition drawEffect (w : World) : World :=
  match map (rendered w) with
  | None => w
  | Some m =>
      if bool_decide (drawType (rendered w) = GeometryType.None) then w
      else
        let '(drawInteraction, w) :=
          new_Draw (source (rendered w)) (drawType (rendered w)) w in
        let w := addInteraction m drawInteraction w in
        let w := on_drawend drawInteraction SetLastFeature w in
        set_drawCleanup (Some (m, drawInteraction)) w
  end.

(** The cleanup of the second effect:
    [map.removeInteraction(drawInteraction)]. *)
Definition run_drawCleanup (w : World) : World :=
  match drawCleanup w with
  | Some (m, drawInteraction) =>
      set_drawCleanup None (removeInteraction m drawInteraction w)
  | None => w
  end.

Definition drawDeps (s : State) : option nat * GeometryType.t * nat :=
  (map s, drawType s, source s).

(** [handleMeasureClick] (lines 92-114).  It reads the state it was rendered
    with. *)
Definition handleMeasureClick (w : World) : World :=
  match lastFeature (rendered w) with
  | None => w
  | Some f =>
      let geometry := features w !! f ≫= getGeometry in
      let output :=
        if instanceof geometry Polygon then
          match geometry with
          | Some g => "Area: " +:+ millify (getArea g) +:+ " square meters"
          | None => ""
          end
        else if instanceof geometry LineString then
          match geometry with
          | Some g => "Length: " +:+ millify (getLength g) +:+ " meters"
          | None => ""
          end
        else "" in
      setMeasurement output w
  end.

(** The controls rendered from the state (lines 116-130). *)
Definition render (s : State) : Dom :=
  {| select_options :=
       [GeometryType.LineString; GeometryType.Point; GeometryType.Polygon];
     select_value := drawType s;
     button :=
       if bool_decide (drawType s ≠ GeometryType.Point) then
         Some (if bool_decide (drawType s = GeometryType.Polygon)
               then "Measure Area" else "Measure Length")
       else None;
     paragraph :=
       if bool_decide (measurement s = "") then None
       else Some (measurement s) |}.

(** ** React's life cycle

    State setters queue their update; the next render returns the updated
    state to the hooks, and after the commit the effects whose dependencies
    changed are cleaned up and run again.  Each event below is taken with
    the render and the effects it causes, as React does for events of the
    page before it handles the next one. *)

(** The first render and commit: the hooks take their initial values, then
    both effects run in order.  [setMap] in the first effect queues the map;
    the second effect still sees no map and returns at once. *)
Definition mount (el : HTMLDivElement) : World :=
  let w :=
    {| mounted := true;
       rendered := {| map := None; source := 0;
                      drawType := GeometryType.LineString;
                      lastFeature := None; measurement := "" |};
       queued := {| map := None; source := 0;
                    drawType := GeometryType.LineString;
                    lastFeature := None; measurement := "" |};
       initCleanup := None; drawCleanup := None;
       maps := []; sources := []; draws := []; features := [];
       log := [] |} in
  let '(src, w) := new_VectorSource w in
  let s := {| map := None; source := src;
              drawType := GeometryType.LineString;
              lastFeature := None; measurement := "" |} in
  let w := set_queued s (set_rendered s w) in
  let w := initEffect el w in
  drawEffect w.

(** A later render and commit.  Nothing happens when no queued update
    changed the state.  Otherwise the component function runs again: the
    argument of [useState(new VectorSource(...))] is evaluated and dropped,
    the hooks return the updated state, and the second effect is cleaned up
    and run again when one of its dependencies changed.  The first effect
    has no dependencies and never runs again. *)
Definition rerender (w : World) : World :=
  let prev := rendered w in
  let next := queued w in
  if bool_decide (prev = next) then w
  else
    let '(_, w) := new_VectorSource w in
    let w := set_rendered next w in
    if bool_decide (drawDeps prev = drawDeps next) then w
    else drawEffect (run_drawCleanup w).

(** Unmounting runs the cleanups of both effects. *)
Definition unmount (w : World) : World :=
  set_mounted false (run_drawCleanup (run_initCleanup w)).

(** The events of the component's life after the first commit: a render of
    what is queued, a change of the select, a sketch completed with Draw
    interaction [d], a click on the measure button, the unmount. *)
Inductive Event :=
  | Flush
  | Change (value : GeometryType.t)
  | DrawEnd (d : nat) (cs : list Coordinate)
  | Click
  | Unmount.

(** What an event does before React renders again. *)
Definition handle (e : Event) (w : World) : World :=
  match e with
  | Flush => w
  | Change value => setDrawType value w
  | DrawEnd d cs => finishDrawing d cs w
  | Click => handleMeasureClick w
  | Unmount => w
  end.

(** An event with the render that follows it.  An unmounted component
    handles nothing. *)
Definition step (e : Event) (w : World) : World :=
  if mounted w then
    match e with
    | Unmount => unmount w
    | _ => rerender (handle e w)
    end
  else w.

Definition run (w : World) (es : list Event) : World :=
  foldl (fun w e => step e w) w es.

(** The events the rendered controls and the map can produce: a value of
    the select is one of its options, a click needs the button, a sketch is
    completed with an attached interaction. *)
Definition enabled (w : World) (e : Event) : bool :=
  mounted w &&
  match e with
  | Flush | Unmount => true
  | Change value =>
      bool_decide (value ∈ select_options (render (rendered w)))
  | DrawEnd d _ => attached d w
  | Click => bool_decide (is_Some (button (render (rendered w))))
  end.

Fixpoint enabled_run (w : World) (es : list Event) : bool :=
  match es with
  | [] => true
  | e :: es' => enabled w e && enabled_run (step e w) es'
  end.

(** ** Reachable worlds and what holds of them *)

(** The worlds the component goes through once mounted on [el]. *)
Inductive reachable (el : HTMLDivElement) : World -> Prop :=
  | reachable_mount : reachable el (mount el)
  | reachable_step e w : reachable el w -> reachable el (step e w).

(** The number of [setTarget(undefined)] calls in a log. *)
Definition is_detach (c : Call) : bool :=
  match c with
  | SetTarget _ None => true
  | _ => false
  end.

Definition detaches (l : list Call) : nat :=
  length (List.filter is_detach l).

(** The map the first effect builds, up to its target and interactions. *)
Definition built_map (tgt : option HTMLDivElement) (ds : list nat) : Map :=
  {| target := tgt;
     layers := [TileLayer OSM; VectorLayer 0];
     view := {| center := [-11000000; 4600000]%Z; zoom := 4 |};
     interactions := ds |}.

(** The interaction a pending cleanup of the second effect will remove. *)
Definition cleanup_draws (c : option (nat * nat)) : list nat :=
  match c with
  | Some (_, d) => [d]
  | None => []
  end.

(** The pending cleanup of the second effect matches the rendered state:
    it holds the map and a Draw object of the rendered drawing mode, bound
    to the component's source and listening for drawend; there is none when
    no map is rendered or the mode is "None". *)
Definition cleanup_matches (s : State) (c : option (nat * nat))
    (ds : list Draw) : Prop :=
  match c with
  | Some (m, d) =>
      m = 0 ∧ map s = Some 0 ∧ drawType s ≠ GeometryType.None
      ∧ ds !! d = Some {| draw_source := 0; draw_type := drawType s;
                          drawend := [SetLastFeature] |}
  | None => map s = None ∨ drawType s = GeometryType.None
  end.

(** What the engine's objects and the effects' cleanups satisfy in every
    reachable world. *)
Record invariant (el : HTMLDivElement) (w : World) : Prop := {
  inv_source : source (rendered w) = 0 ∧ source (queued w) = 0;
  inv_sources : is_Some (sources w !! 0);
  inv_map_queued : map (queued w) = Some 0;
  inv_map_rendered : map (rendered w) = None ∨ map (rendered w) = Some 0;
  inv_maps :
    maps w = [built_map (if mounted w then Some el else None)
                        (cleanup_draws (drawCleanup w))];
  inv_cleanup :
    if mounted w then cleanup_matches (rendered w) (drawCleanup w) (draws w)
    else drawCleanup w = None;
  inv_init : initCleanup w = if mounted w then Some 0 else None;
  inv_log : detaches (log w) = if mounted w then 0 else 1 }.

(** What the state of the hooks satisfies in every reachable world: only
    the map can be queued and not yet rendered, and the measurement text is
    empty as long as nothing was drawn. *)
Record hooks_invariant (w : World) : Prop := {
  sync_drawType : drawType (rendered w) = drawType (queued w);
  sync_lastFeature : lastFeature (rendered w) = lastFeature (queued w);
  sync_measurement : measurement (rendered w) = measurement (queued w);
  no_measurement :
    lastFeature (queued w) = None → measurement (queued w) = "" }.

(** A source that keeps its features, in order, and may have got more. *)
Definition grows (S S' : VectorSource) : Prop :=
  wrapX S' = wrapX S ∧ getFeatures S `prefix_of` getFeatures S'.

(** ** Further invariants of the stores *)

(** The [addInteraction] and [removeInteraction] calls in a log. *)
Definition is_add (c : Call) : bool :=
  match c with
  | AddInteraction _ _ => true
  | _ => false
  end.

Definition is_remove (c : Call) : bool :=
  match c with
  | RemoveInteraction _ _ => true
  | _ => false
  end.

Definition adds (l : list Call) : nat := length (List.filter is_add l).

Definition removes (l : list Call) : nat := length (List.filter is_remove l).

(** The kinds of geometry the component's Draw interactions build. *)
Definition drawn_kind (g : Geometry) : Prop :=
  constructor g = Point ∨ constructor g = LineString
  ∨ constructor g = Polygon.

(** A feature as a Draw interaction of the component makes it. *)
Definition drawn_feature (F : Feature) : Prop :=
  ∃ g, getGeometry F = Some g ∧ drawn_kind g.

(** A Draw object as the second effect makes it. *)
Definition effect_draw (D : Draw) : Prop :=
  draw_source D = 0 ∧ draw_type D ≠ GeometryType.None
  ∧ drawend D = [SetLastFeature].

(** A text [handleMeasureClick] can have produced from the features of a
    world: the empty text, or the area of a Polygon or the length of a
    LineString among them. *)
Definition measured (fs : list Feature) (s : string) : Prop :=
  s = ""
  ∨ ∃ F g, F ∈ fs ∧ getGeometry F = Some g
      ∧ ((constructor g = Polygon
          ∧ s = "Area: " +:+ millify (getArea g) +:+ " square meters")
         ∨ (constructor g = LineString
            ∧ s = "Length: " +:+ millify (getLength g) +:+ " meters")).

(** What the stores of features, sources and Draw objects and the log
    satisfy in every reachable world. *)
Record store_invariant (w : World) : Prop := {
  st_features : Forall drawn_feature (features w);
  st_source :
    sources w !! 0
      = Some {| wrapX := false;
                getFeatures := seq 0 (length (features w)) |};
  st_later :
    Forall (fun S => S = {| wrapX := false; getFeatures := [] |})
           (drop 1 (sources w));
  st_last : lastFeature (queued w) = last (seq 0 (length (features w)));
  st_draws : Forall effect_draw (draws w);
  st_adds : adds (log w) = length (draws w);
  st_balance :
    adds (log w)
      = removes (log w) + length (cleanup_draws (drawCleanup w));
  st_text : measured (features w) (measurement (queued w)) }.

End MapComponent.

(** ** A sample engine

    Integer coordinates with planar measures and a small compact printer; it
    stands in for the external collaborators where the development is run
    on concrete inputs. *)

Definition sample_number (n : Z) : string :=
  DecimalString.NilZero.string_of_int (Z.to_int n).

Definition sample_millify (n : Z) : string :=
  if (n <? 1000)%Z then sample_number n
  else if (n <? 1000000)%Z then sample_number (n / 1000) +:+ "K"
  else sample_number (n / 1000000) +:+ "M".

Definition sample_x (c : list Z) : Z := default 0%Z (c !! 0).
Definition sample_y (c : list Z) : Z := default 0%Z (c !! 1).

(** Taxicab length of a path. *)
Fixpoint sample_length (cs : list (list Z)) : Z :=
  match cs with
  | c1 :: (c2 :: _) as cs' =>
      Z.abs (sample_x c2 - sample_x c1) + Z.abs (sample_y c2 - sample_y c1)
      + sample_length cs'
  | _ => 0
  end.

(** Twice the signed area of an open ring, by the shoelace sum. *)
Fixpoint sample_shoelace (first : list Z) (cs : list (list Z)) : Z :=
  match cs with
  | [] => 0
  | [c] => sample_x c * sample_y first - sample_x first * sample_y c
  | c1 :: (c2 :: _) as cs' =>
      sample_x c1 * sample_y c2 - sample_x c2 * sample_y c1
      + sample_shoelace first cs'
  end.

#[export] Instance sample_engine : @Engine Z := {|
  getArea g :=
    (Z.abs (sample_shoelace (default [] (head (coordinates g)))
                            (coordinates g)) / 2)%Z;
  getLength g := sample_length (coordinates g);
  millify := sample_millify |}.

(** Sample worlds: the component mounted on container 7 and settled, a
    line drawn, a square drawn in Polygon mode, and a point drawn after a
    line was measured, with the mode back on LineString. *)
Definition sample_line : list (list Z) := [[0; 0]; [3000; 4000]]%Z.

Definition sample_square : list (list Z) :=
  [[0; 0]; [100; 0]; [100; 100]; [0; 100]]%Z.

Definition sample_mounted : @World Z := step Flush (mount 7).

Definition sample_line_events : list (@Event Z) :=
  [Flush; DrawEnd 0 sample_line].

Definition sample_square_events : list (@Event Z) :=
  [Flush; Change GeometryType.Polygon; DrawEnd 1 sample_square].

Definition sample_point_events : list (@Event Z) :=
  [Flush; DrawEnd 0 sample_line; Click; Change GeometryType.Point;
   DrawEnd 1 [[5; 5]]%Z; Change GeometryType.LineString].

(** ** Properties *)

Section Properties.

Context {number : Type} {E : @Engine number}.

Implicit Types (w : @World number) (e : @Event number) (s : State).

Arguments detaches : simpl never.

(** Case analysis of a render: nothing queued, the dependencies of the
    second effect unchanged, or the cleanup and the effect run. *)
Ltac rerender_cases w :=
  unfold rerender; case_bool_decide; [|cbn; case_bool_decide;
    [|unfold drawEffect, run_drawCleanup; cbn;
      destruct (drawCleanup w) as [[? ?]|]; cbn;
      destruct (map (queued w)); cbn; try case_bool_decide]].

(** *** Renders and steps *)

Lemma rendered_rerender w : rendered (rerender w) = queued w.
Proof. rerender_cases w; done. Qed.

Lemma queued_rerender w : queued (rerender w) = queued w.
Proof. rerender_cases w; done. Qed.

Lemma features_rerender w : features (rerender w) = features w.
Proof. rerender_cases w; done. Qed.

Lemma mounted_rerender w : mounted (rerender w) = mounted w.
Proof. rerender_cases w; done. Qed.

Lemma sources_rerender w :
  sources (rerender w) = sources w
  ∨ sources (rerender w)
      = sources w ++ [{| wrapX := false; getFeatures := [] |}].
Proof. rerender_cases w; auto. Qed.

Lemma step_mounted e w :
  mounted w = true →
  step e w = match e with Unmount => unmount w | _ => rerender (handle e w) end.
Proof. intros Hm. unfold step. by rewrite Hm. Qed.

Lemma step_unmounted e w : mounted w = false → step e w = w.
Proof. intros Hm. unfold step. by rewrite Hm. Qed.

Lemma run_listeners f ls w :
  foldl (fun w l => run_listener f l w) w ls =
    match ls with [] => w | _ => setLastFeature (Some f) w end.
Proof.
  revert w. induction ls as [|[] ls IH]; intros w; [done|].
  cbn. rewrite IH. by destruct ls.
Qed.

Lemma queued_finishDrawing d cs w :
  queued (finishDrawing d cs w) = queued w
  ∨ ∃ f, queued (finishDrawing d cs w) = queued (setLastFeature (Some f) w).
Proof.
  unfold finishDrawing. destruct (attached d w); [|by left].
  destruct (draws w !! d) as [D|]; [|by left].
  destruct (sketchGeometry _ cs) as [g|]; [|by left].
  cbn. rewrite run_listeners. destruct (drawend D); [by left|].
  right. by eexists.
Qed.

Lemma mounted_handle e w : mounted (handle e w) = mounted w.
Proof.
  destruct e; cbn; try done.
  - unfold finishDrawing. destruct (attached d w); [|done].
    destruct (draws w !! d) as [D|]; [|done].
    destruct (sketchGeometry _ cs) as [g|]; [|done].
    cbn. rewrite run_listeners. by destruct (drawend D).
  - unfold handleMeasureClick. by destruct (lastFeature (rendered w)).
Qed.

Lemma mounted_step e w :
  e ≠ Unmount → mounted (step e w) = mounted w.
Proof.
  intros He. destruct (mounted w) eqn:Hm.
  - rewrite step_mounted by done.
    destruct e; try done; by rewrite mounted_rerender, mounted_handle.
  - by rewrite step_unmounted.
Qed.

Lemma mounted_Unmount w : mounted (step Unmount w) = false.
Proof.
  destruct (mounted w) eqn:Hm.
  - by rewrite step_mounted.
  - by rewrite step_unmounted.
Qed.

Lemma run_snoc w es e : run w (es ++ [e]) = step e (run w es).
Proof. unfold run. by rewrite foldl_snoc. Qed.

Lemma mounted_run w es :
  Unmount ∉ es → mounted (run w es) = mounted w.
Proof.
  revert w. induction es as [|e es IH]; intros w Hes; [done|].
  apply not_elem_of_cons in Hes as [He Hes].
  change (run w (e :: es)) with (run (step e w) es).
  rewrite IH by done. by apply mounted_step.
Qed.

Lemma hooks_unmount w :
  rendered (unmount w) = rendered w ∧ queued (unmount w) = queued w.
Proof.
  unfold unmount, run_initCleanup, run_drawCleanup.
  destruct (initCleanup w); cbn; by destruct (drawCleanup w) as [[m d]|].
Qed.

Lemma rendered_Click w :
  mounted w = true →
  rendered (step Click w) = queued (handleMeasureClick w).
Proof. intros Hm. rewrite step_mounted by done. apply rendered_rerender. Qed.

Lemma drawType_handle e w :
  drawType (queued (handle e w)) =
    match e with Change v => v | _ => drawType (queued w) end.
Proof.
  destruct e; cbn; try done.
  - by destruct (queued_finishDrawing d cs w) as [->|[f ->]].
  - unfold handleMeasureClick. by destruct (lastFeature (rendered w)).
Qed.

(** *** The invariants *)

Lemma is_Some_alter {A} (f : A → A) i j (l : list A) :
  is_Some (l !! j) → is_Some (alter f i l !! j).
Proof. rewrite !lookup_lt_is_Some, length_alter. done. Qed.

Lemma is_Some_app {A} j (l k : list A) :
  is_Some (l !! j) → is_Some ((l ++ k) !! j).
Proof. rewrite !lookup_lt_is_Some, length_app. lia. Qed.

Lemma alter_snoc {A} (f : A → A) (l : list A) x :
  alter f (length l) (l ++ [x]) = l ++ [f x].
Proof.
  replace (length l) with (length l + 0) by lia.
  by rewrite alter_app_r.
Qed.

Lemma snoc_lookup {A} (l : list A) x : (l ++ [x]) !! length l = Some x.
Proof. by apply list_lookup_middle. Qed.

Lemma detaches_snoc l c :
  detaches (l ++ [c]) = detaches l + (if is_detach c then 1 else 0).
Proof.
  unfold detaches. rewrite List.filter_app, length_app. cbn.
  by destruct (is_detach c).
Qed.

Lemma invariant_mount el : invariant el (mount (number:=number) el).
Proof. split; cbn; eauto. Qed.

Lemma invariant_handle el e w :
  invariant el w → invariant el (handle e w).
Proof.
  intros [[Hs1 Hs2] Hss Hmq Hmr Hmaps Hc Hi Hl].
  destruct e; cbn; [done| | | |done].
  - split; cbn; eauto.
  - unfold finishDrawing. destruct (attached d w); [|done].
    destruct (draws w !! d) as [D|]; [|done].
    destruct (sketchGeometry _ cs) as [g|]; [|done].
    cbn. rewrite run_listeners.
    destruct (drawend D); split; cbn; eauto using is_Some_alter.
  - unfold handleMeasureClick. destruct (lastFeature (rendered w)); [|done].
    split; cbn; eauto.
Qed.

Lemma invariant_rerender el w :
  mounted w = true → invariant el w → invariant el (rerender w).
Proof.
  intros Hm Hinv. unfold rerender. case_bool_decide as Heq; [done|].
  destruct Hinv as [[Hs1 Hs2] Hss Hmq Hmr Hmaps Hc Hi Hl].
  rewrite Hm in *. cbn.
  case_bool_decide as Hdeps.
  { unfold drawDeps in Hdeps. injection Hdeps as Hd1 Hd2 Hd3.
    split; cbn; rewrite ?Hm; eauto using is_Some_app.
    - destruct (drawCleanup w) as [[m d]|]; cbn in *.
      + by rewrite <-Hd1, <-Hd2.
      + by rewrite <-Hd1, <-Hd2. }
  unfold run_drawCleanup, drawEffect. cbn.
  destruct (drawCleanup w) as [[m d]|] eqn:Hdc; cbn in *.
  - destruct Hc as (-> & Hrm & Hrt & Hd).
    rewrite Hmq.
    case_bool_decide as Hnone.
    + split; cbn; rewrite ?Hm, ?Hmaps; cbn;
        rewrite ?bool_decide_eq_true_2 by done;
        eauto using is_Some_app.

      rewrite detaches_snoc. cbn. lia.
    + split; cbn; rewrite ?Hm, ?Hmaps, ?Hs2; cbn;
        rewrite ?bool_decide_eq_true_2 by done;
        eauto using is_Some_app.
      * rewrite alter_snoc, snoc_lookup. done.
      * rewrite !detaches_snoc. cbn. lia.
  - rewrite Hmq.
    case_bool_decide as Hnone.
    + split; cbn; rewrite ?Hm, ?Hmaps, ?Hdc; cbn; eauto using is_Some_app.
    + split; cbn; rewrite ?Hm, ?Hmaps, ?Hs2; cbn; eauto using is_Some_app.
      * rewrite alter_snoc, snoc_lookup. done.
      * rewrite !detaches_snoc. cbn. lia.
Qed.

Lemma invariant_unmount el w :
  mounted w = true → invariant el w → invariant el (unmount w).
Proof.
  intros Hm [[Hs1 Hs2] Hss Hmq Hmr Hmaps Hc Hi Hl].
  rewrite Hm in *.
  unfold unmount, run_initCleanup. rewrite Hi.
  unfold run_drawCleanup. cbn.
  destruct (drawCleanup w) as [[m d]|] eqn:Hdc; cbn in *.
  - destruct Hc as (-> & _).
    split; cbn; rewrite ?Hmaps; cbn;
      rewrite ?bool_decide_eq_true_2 by done; eauto.
    rewrite !detaches_snoc. cbn. lia.
  - split; cbn; rewrite ?Hmaps, ?Hdc; cbn; eauto.
    rewrite !detaches_snoc. cbn. lia.
Qed.

Lemma invariant_step el e w : invariant el w → invariant el (step e w).
Proof.
  intros Hinv. destruct (mounted w) eqn:Hm.
  - rewrite step_mounted by done.
    destruct e; try by apply invariant_unmount.
    all: apply invariant_rerender, invariant_handle; [|done].
    all: by rewrite mounted_handle.
  - by rewrite step_unmounted.
Qed.

Lemma reachable_invariant el w : reachable el w → invariant el w.
Proof.
  induction 1; [apply invariant_mount|by apply invariant_step].
Qed.

Lemma hooks_invariant_mount el : hooks_invariant (mount (number:=number) el).
Proof. by split. Qed.

Lemma hooks_invariant_step e w :
  hooks_invariant w → hooks_invariant (step e w).
Proof.
  intros [Ht Hf Hx Hno]. destruct (mounted w) eqn:Hm.
  2: by rewrite step_unmounted.
  rewrite step_mounted by done.
  destruct e.
  1-4: split; rewrite ?rendered_rerender, ?queued_rerender; try done.
  - cbn. unfold handle.
    destruct (queued_finishDrawing d cs w) as [->|[f ->]]; [done|].
    done.
  - cbn. unfold handleMeasureClick. rewrite Hf.
    destruct (lastFeature (queued w)) eqn:Hlf; cbn; [congruence|auto].
  - unfold unmount, run_initCleanup, run_drawCleanup.
    destruct (initCleanup w); cbn;
      destruct (drawCleanup w) as [[m d]|]; split; cbn; auto.
Qed.

Lemma reachable_hooks_invariant el w : reachable el w → hooks_invariant w.
Proof.
  induction 1; [apply hooks_invariant_mount|by apply hooks_invariant_step].
Qed.

Lemma reachable_run el w es : reachable el w → reachable el (run w es).
Proof.
  revert w. induction es as [|e es IH]; intros w Hw; [done|].
  cbn. apply IH. by constructor.
Qed.

Lemma attached_draws_invariant el w :
  invariant el w → attached_draws w = cleanup_draws (drawCleanup w).
Proof.
  intros Hinv. unfold attached_draws. rewrite (inv_maps _ _ Hinv). cbn.
  by rewrite app_nil_r.
Qed.

(** In a reachable world, an attached Draw interaction is the one the
    second effect created for the rendered mode. *)
Lemma attached_invariant el w d :
  invariant el w → attached d w = true →
  mounted w = true
  ∧ drawCleanup w = Some (0, d)
  ∧ drawType (rendered w) ≠ GeometryType.None
  ∧ draws w !! d = Some {| draw_source := 0;
                           draw_type := drawType (rendered w);
                           drawend := [SetLastFeature] |}.
Proof.
  intros Hinv. pose proof (inv_cleanup _ _ Hinv) as Hc. revert Hc.
  unfold attached. rewrite (inv_maps _ _ Hinv). cbn.
  rewrite orb_false_r, andb_true_iff, !bool_decide_eq_true.
  destruct (mounted w); [|by intros _ [[? [=]] _]].
  intros Hc [_ Hd].
  destruct (drawCleanup w) as [[m d']|]; cbn in *.
  - apply list_elem_of_singleton in Hd as ->.
    by destruct Hc as (-> & _ & ? & ?).
  - by apply elem_of_nil in Hd.
Qed.

(** What completing a sketch does in a reachable world. *)
Lemma finishDrawing_attached el w d cs :
  invariant el w → attached d w = true →
  ∃ g, sketchGeometry (drawType (rendered w)) cs = Some g
     ∧ finishDrawing d cs w =
         addFeature 0 (length (features w))
           (setLastFeature (Some (length (features w)))
              (new_Feature g w).2).
Proof.
  intros Hinv Hd.
  destruct (attached_invariant _ _ _ Hinv Hd) as (_ & _ & Ht & HD).
  unfold finishDrawing. rewrite Hd, HD. cbn.
  destruct (drawType (rendered w)); cbn; eauto. done.
Qed.

(** *** The measure action *)

(** The text [handleMeasureClick] computes for a geometry. *)
Lemma measurement_Click w f F :
  mounted w = true →
  lastFeature (rendered w) = Some f →
  features w !! f = Some F →
  measurement (rendered (step Click w)) =
    if instanceof (getGeometry F) Polygon then
      from_option (fun g => "Area: " +:+ millify (getArea g)
                            +:+ " square meters") "" (getGeometry F)
    else if instanceof (getGeometry F) LineString then
      from_option (fun g => "Length: " +:+ millify (getLength g)
                            +:+ " meters") "" (getGeometry F)
    else "".
Proof.
  intros Hm Hf HF. rewrite rendered_Click by done.
  unfold handleMeasureClick. rewrite Hf, HF. cbn.
  by destruct (getGeometry F).
Qed.

(** C2: when the last-drawn feature's geometry is a Polygon, the measure
    action sets the measurement text to exactly "Area: X square meters",
    where X is [millify] of [getArea] of that geometry. *)
Theorem measure_polygon w f F g :
  mounted w = true →
  lastFeature (rendered w) = Some f →
  features w !! f = Some F →
  getGeometry F = Some g →
  constructor g = Polygon →
  measurement (rendered (step Click w)) =
    "Area: " +:+ millify (getArea g) +:+ " square meters".
Proof.
  intros Hm Hf HF Hg Hc.
  rewrite (measurement_Click w f F) by done.
  rewrite Hg. cbn. by rewrite bool_decide_eq_true_2.
Qed.

(** C1, as amended: when the last-drawn feature's geometry is a Point, or
    of any kind other than Polygon and LineString, the measure action sets
    the measurement text to the empty string: no measurement paragraph is
    rendered, so neither "Length" nor "Area" text appears, and a text
    displayed before is cleared. *)
Theorem measure_other w f F g :
  mounted w = true →
  lastFeature (rendered w) = Some f →
  features w !! f = Some F →
  getGeometry F = Some g →
  constructor g ≠ Polygon →
  constructor g ≠ LineString →
  measurement (rendered (step Click w)) = ""
  ∧ paragraph (render (rendered (step Click w))) = None.
Proof.
  intros Hm Hf HF Hg Hp Hl.
  assert (measurement (rendered (step Click w)) = "") as Hout.
  { rewrite (measurement_Click w f F) by done.
    rewrite Hg. cbn. by rewrite !bool_decide_eq_false_2. }
  split; [done|]. unfold render; cbn. by rewrite Hout.
Qed.

(** C4: when no feature has been drawn yet, the measure action is a silent
    no-op: the handler leaves the world as it is, the click does nothing a
    plain re-render would not do (nothing at all once the queued map is
    rendered), and the measurement text is empty before and after. *)
Theorem measure_without_drawing el w :
  reachable el w →
  lastFeature (rendered w) = None →
  handleMeasureClick w = w
  ∧ step Click w = step Flush w
  ∧ (rendered w = queued w → step Click w = w)
  ∧ measurement (rendered w) = ""
  ∧ measurement (rendered (step Click w)) = "".
Proof.
  intros Hw Hf.
  assert (handleMeasureClick w = w) as Hh.
  { unfold handleMeasureClick. by rewrite Hf. }
  destruct (reachable_hooks_invariant _ _ Hw) as [_ Hlf Hx Hno].
  assert (measurement (queued w) = "") as Hq.
  { apply Hno. by rewrite <-Hlf. }
  assert (step Click w = step Flush w) as Hstep.
  { unfold step, handle. by rewrite Hh. }
  split_and!; try done.
  - intros Heq. rewrite Hstep. unfold step, handle.
    destruct (mounted w); [|done].
    unfold rerender. by rewrite bool_decide_eq_true_2.
  - by rewrite Hx.
  - rewrite Hstep. unfold step, handle.
    destruct (mounted w); [|by rewrite Hx].
    by rewrite rendered_rerender.
Qed.

(** C3: when a LineString drawing is completed, the draw-end event sets the
    last-drawn feature to a feature with that line geometry, and the
    measure action then sets the measurement text to exactly
    "Length: X meters", where X is [millify] of [getLength] of the
    geometry; the text starts with "Length", so it is not an "Area" text. *)
Theorem measure_line_drawing el w d cs :
  reachable el w →
  attached d w = true →
  draw_type <$> draws w !! d = Some GeometryType.LineString →
  let g := {| constructor := LineString; coordinates := cs |} in
  let w1 := step (DrawEnd d cs) w in
  (∃ f, lastFeature (rendered w1) = Some f
        ∧ features w1 !! f = Some {| getGeometry := Some g |})
  ∧ measurement (rendered (step Click w1)) =
      "Length: " +:+ millify (getLength g) +:+ " meters"
  ∧ String.prefix "Area" (measurement (rendered (step Click w1))) = false.
Proof.
  intros Hw Hd Ht g w1.
  pose proof (reachable_invariant _ _ Hw) as Hinv.
  destruct (attached_invariant _ _ _ Hinv Hd) as (Hm & _ & _ & HD).
  rewrite HD in Ht. injection Ht as Ht.
  destruct (finishDrawing_attached _ _ _ cs Hinv Hd) as (g' & Hg & Hfin).
  rewrite Ht in Hg. injection Hg as <-.
  assert (lastFeature (rendered w1) = Some (length (features w))) as Hlf.
  { unfold w1. rewrite step_mounted by done.
    rewrite rendered_rerender. cbn. by rewrite Hfin. }
  assert (features w1 !! length (features w)
          = Some {| getGeometry := Some g |}) as HF.
  { unfold w1. rewrite step_mounted by done.
    rewrite features_rerender. cbn. rewrite Hfin. cbn.
    apply snoc_lookup. }
  assert (mounted w1 = true) as Hm1.
  { unfold w1. by rewrite mounted_step. }
  assert (measurement (rendered (step Click w1)) =
            "Length: " +:+ millify (getLength g) +:+ " meters") as Hout.
  { by rewrite (measurement_Click w1 _ _ Hm1 Hlf HF). }
  split_and!; [eauto|done|by rewrite Hout].
Qed.

(** A line drawn in LineString mode, the mode then set to Polygon: the
    button reads "Measure Area" and produces the "Length" text. *)
Lemma measure_area_button_on_line el cs :
  let w := run (mount el)
             [Flush; DrawEnd 0 cs; Change GeometryType.Polygon] in
  drawType (rendered w) = GeometryType.Polygon
  ∧ button (render (rendered w)) = Some "Measure Area"
  ∧ measurement (rendered (step Click w)) =
      "Length: "
      +:+ millify (getLength {| constructor := LineString;
                                coordinates := cs |})
      +:+ " meters".
Proof. vm_compute. split_and!; reflexivity. Qed.

(** C9: the text the measure action produces depends on the last-drawn
    feature only, not on the drawing mode: two mounted components with the
    same last-drawn feature get the same text; so with a line drawn and
    the mode then set to Polygon, the button reads "Measure Area" and
    produces the "Length" text. *)
Theorem measure_ignores_mode el1 el2 w1 w2 :
  reachable el1 w1 → reachable el2 w2 →
  mounted w1 = true → mounted w2 = true →
  lastFeature (rendered w1) = lastFeature (rendered w2) →
  (∀ f, lastFeature (rendered w1) = Some f →
        features w1 !! f = features w2 !! f) →
  measurement (rendered (step Click w1))
    = measurement (rendered (step Click w2))
  ∧ ∀ cs,
      let w := run (mount el1)
                 [Flush; DrawEnd 0 cs; Change GeometryType.Polygon] in
      drawType (rendered w) = GeometryType.Polygon
      ∧ button (render (rendered w)) = Some "Measure Area"
      ∧ measurement (rendered (step Click w)) =
          "Length: "
          +:+ millify (getLength {| constructor := LineString;
                                    coordinates := cs |})
          +:+ " meters".
Proof.
  intros Hw1 Hw2 Hm1 Hm2 Hlf Hfs.
  split; [|apply measure_area_button_on_line].
  rewrite !rendered_Click by done. unfold handleMeasureClick.
  rewrite <-Hlf. destruct (lastFeature (rendered w1)) as [f|] eqn:Hf1.
  - cbn. by rewrite (Hfs f eq_refl).
  - destruct (reachable_hooks_invariant _ _ Hw1) as [_ Hs1 _ Hno1].
    destruct (reachable_hooks_invariant _ _ Hw2) as [_ Hs2 _ Hno2].
    rewrite Hno1, Hno2; [done|congruence..].
Qed.

(** *** The drawing interaction *)

(** A render either leaves the map alone or runs the second effect again:
    the interaction attached before is removed, then the new one, if any,
    is added. *)
Lemma rerender_log el w :
  mounted w = true → invariant el w →
  (log (rerender w) = log w
   ∧ attached_draws (rerender w) = attached_draws w)
  ∨ log (rerender w) =
      log w ++ (RemoveInteraction 0 <$> attached_draws w)
            ++ (AddInteraction 0 <$> attached_draws (rerender w)).
Proof.
  intros Hm Hinv.
  rewrite (attached_draws_invariant el (rerender w))
    by by apply invariant_rerender.
  rewrite (attached_draws_invariant el w) by done.
  unfold rerender. case_bool_decide as Heq; [by left|].
  cbn. case_bool_decide as Hdeps; [by left|]. right.
  destruct Hinv as [[Hs1 Hs2] Hss Hmq Hmr Hmaps Hc Hi Hl].
  rewrite Hm in *.
  unfold run_drawCleanup, drawEffect. cbn.
  destruct (drawCleanup w) as [[m d]|] eqn:Hdc; cbn in *.
  - destruct Hc as (-> & _). rewrite Hmq.
    case_bool_decide; cbn; by rewrite <-?(assoc_L (++)).
  - rewrite Hmq.
    case_bool_decide; cbn; by rewrite ?Hdc, ?app_nil_r.
Qed.

(** C5: in every reachable world at most one Draw interaction is attached
    to the map, and it is of the current drawing mode; none is attached
    when the mode is "None" or no map is rendered yet; and a mode change
    either leaves the map alone or removes the interaction attached before
    and then adds the new one, of which there is at most one. *)
Theorem one_draw_interaction el w :
  reachable el w →
  length (attached_draws w) ≤ 1
  ∧ (∀ d, d ∈ attached_draws w →
          draw_type <$> draws w !! d = Some (drawType (rendered w)))
  ∧ (drawType (rendered w) = GeometryType.None ∨ map (rendered w) = None →
     attached_draws w = [])
  ∧ (∀ v, let w' := step (Change v) w in
          length (attached_draws w') ≤ 1
          ∧ ((log w' = log w ∧ attached_draws w' = attached_draws w)
             ∨ log w' =
                 log w ++ (RemoveInteraction 0 <$> attached_draws w)
                       ++ (AddInteraction 0 <$> attached_draws w'))).
Proof.
  intros Hw.
  assert (∀ w, reachable el w → length (attached_draws w) ≤ 1) as Hle.
  { clear w Hw. intros w Hw.
    rewrite (attached_draws_invariant el)
      by by apply reachable_invariant.
    destruct (drawCleanup w) as [[m d]|]; cbn; lia. }
  pose proof (reachable_invariant _ _ Hw) as Hinv.
  pose proof (inv_cleanup _ _ Hinv) as Hc.
  split_and!.
  - by apply Hle.
  - rewrite (attached_draws_invariant el) by done.
    destruct (mounted w); [|by rewrite Hc; intros d ?%elem_of_nil].
    destruct (drawCleanup w) as [[m d']|]; cbn in *.
    + intros d ->%list_elem_of_singleton.
      destruct Hc as (_ & _ & _ & ->). done.
    + by intros d ?%elem_of_nil.
  - rewrite (attached_draws_invariant el) by done.
    destruct (mounted w); [|by rewrite Hc].
    destruct (drawCleanup w) as [[m d']|]; cbn in *; [|done].
    destruct Hc as (_ & Hm & Ht & _). intros [?|?]; congruence.
  - intros v w'. split; [apply Hle; by constructor|].
    unfold w'. destruct (mounted w) eqn:Hm.
    + rewrite step_mounted by done.
      destruct (rerender_log el (handle (Change v) w)) as [?|?];
        [done|by apply invariant_handle|by left|by right].
    + rewrite step_unmounted by done. by left.
Qed.

(** While the component is mounted, a map is rendered and the mode is not
    "None", exactly one Draw interaction is attached. *)
Lemma draw_interaction_attached el w :
  reachable el w → mounted w = true →
  map (rendered w) ≠ None → drawType (rendered w) ≠ GeometryType.None →
  ∃ d, attached_draws w = [d] ∧ attached d w = true.
Proof.
  intros Hw Hm Hmap Ht.
  pose proof (reachable_invariant _ _ Hw) as Hinv.
  pose proof (inv_cleanup _ _ Hinv) as Hc.
  rewrite (attached_draws_invariant el) by done.
  unfold attached. rewrite (inv_maps _ _ Hinv).
  rewrite Hm in *.
  destruct (drawCleanup w) as [[m d]|]; cbn in *.
  - exists d. split; [done|].
    rewrite orb_false_r, bool_decide_eq_true.
    by apply list_elem_of_singleton.
  - by destruct Hc.
Qed.

(** *** Mount, the select and the drawing source *)

(** C6: right after mount, before any user interaction, both at the first
    commit and once the queued map is rendered, the drawing mode is
    LineString and the one map has the container as target, view center
    [-11000000, 4600000], zoom 4, and as layers an OSM tile layer and a
    vector layer bound to the component's drawing source, which is empty. *)
Theorem initial_state el :
  Forall (fun w : @World number =>
    drawType (rendered w) = GeometryType.LineString
    ∧ select_value (render (rendered w)) = GeometryType.LineString
    ∧ maps w =
        [{| target := Some el;
            layers := [TileLayer OSM; VectorLayer (source (rendered w))];
            view := {| center := [-11000000; 4600000]%Z; zoom := 4 |};
            interactions := attached_draws w |}]
    ∧ sources w !! source (rendered w)
        = Some {| wrapX := false; getFeatures := [] |}
    ∧ lastFeature (rendered w) = None
    ∧ measurement (rendered w) = "")
  [mount el; step Flush (mount el)].
Proof.
  constructor; [|constructor; [|constructor]];
    vm_compute; split_and!; reflexivity.
Qed.

Lemma None_not_offered s :
  GeometryType.None ∉ select_options (render s).
Proof.
  cbn. intros H. repeat (apply elem_of_cons in H as [?|H]); try done.
  by apply elem_of_nil in H.
Qed.

(** The events the controls can produce never select the mode "None". *)
Lemma enabled_run_drawType es w :
  drawType (rendered w) ≠ GeometryType.None →
  drawType (queued w) ≠ GeometryType.None →
  enabled_run w es = true →
  drawType (rendered (run w es)) ≠ GeometryType.None.
Proof.
  revert w. induction es as [|e es IH]; intros w Hr Hq Hen; [done|].
  cbn in Hen. apply andb_true_iff in Hen as [He Hes].
  unfold enabled in He. apply andb_true_iff in He as [Hm He].
  change (run w (e :: es)) with (run (step e w) es).
  apply IH; [| |done]; rewrite step_mounted by done.
  - destruct e; rewrite ?rendered_rerender, ?drawType_handle; try done.
    + apply bool_decide_eq_true in He. intros ->.
      by apply (None_not_offered (rendered w)).
    + by destruct (hooks_unmount w) as [-> _].
  - destruct e; rewrite ?queued_rerender, ?drawType_handle; try done.
    + apply bool_decide_eq_true in He. intros ->.
      by apply (None_not_offered (rendered w)).
    + by destruct (hooks_unmount w) as [_ ->].
Qed.

(** C7, as amended: the select control offers exactly the three modes
    LineString, Point and Polygon; while the component is mounted each of
    them can be selected and becomes the drawing mode; "None" is not
    offered, and no sequence of events of the controls and the map makes it
    the drawing mode. *)
Theorem select_offers_three_modes el es :
  enabled_run (mount (number:=number) el) es = true →
  let w := run (mount (number:=number) el) es in
  select_options (render (rendered w)) =
    [GeometryType.LineString; GeometryType.Point; GeometryType.Polygon]
  ∧ (mounted w = true →
     ∀ v, v ∈ select_options (render (rendered w)) →
          enabled w (Change v) = true
          ∧ drawType (rendered (step (Change v) w)) = v)
  ∧ enabled w (Change GeometryType.None) = false
  ∧ drawType (rendered w) ≠ GeometryType.None.
Proof.
  intros Hen w. split_and!.
  - done.
  - intros Hm v Hv. split.
    + unfold enabled. rewrite Hm. by apply bool_decide_eq_true.
    + rewrite step_mounted by done. by rewrite rendered_rerender.
  - unfold enabled. by rewrite andb_false_r.
  - by apply enabled_run_drawType.
Qed.

Lemma sources_unmount w : sources (unmount w) = sources w.
Proof.
  unfold unmount, run_initCleanup, run_drawCleanup.
  destruct (initCleanup w); cbn; by destruct (drawCleanup w) as [[m d]|].
Qed.

Lemma sources_handle e w i S :
  sources w !! i = Some S →
  ∃ S', sources (handle e w) !! i = Some S' ∧ grows S S'.
Proof.
  intros HS. destruct e; cbn; try by (exists S).
  - unfold finishDrawing. destruct (attached d w); [|by exists S].
    destruct (draws w !! d) as [D|]; [|by exists S].
    destruct (sketchGeometry _ cs) as [g|]; [|by exists S].
    cbn. rewrite run_listeners.
    assert (∀ w', sources w' = sources w →
      ∃ S', sources (addFeature (draw_source D) (length (features w)) w')
              !! i = Some S' ∧ grows S S') as Hadd.
    { intros w' Hw'. cbn. rewrite Hw'.
      destruct (decide (draw_source D = i)) as [->|Hne].
      - rewrite list_lookup_alter_eq, HS. cbn. eexists. split; [done|].
        split; [done|]. by apply prefix_app_r.
      - rewrite list_lookup_alter_ne by done. by exists S. }
    destruct (drawend D); by apply Hadd.
  - unfold handleMeasureClick.
    destruct (lastFeature (rendered w)); by exists S.
Qed.

Lemma sources_step e w i S :
  sources w !! i = Some S →
  ∃ S', sources (step e w) !! i = Some S' ∧ grows S S'.
Proof.
  intros HS. unfold step. destruct (mounted w); [|by exists S].
  assert (∀ w', (∃ S', sources w' !! i = Some S' ∧ grows S S') →
    ∃ S', sources (rerender w') !! i = Some S' ∧ grows S S') as Hre.
  { intros w' (S' & HS' & Hg). exists S'. split; [|done].
    destruct (sources_rerender w') as [->| ->]; [done|].
    by apply lookup_app_l_Some. }
  destruct e; try by apply Hre, sources_handle.
  rewrite sources_unmount. by exists S.
Qed.

Lemma sources_run es w i S :
  sources w !! i = Some S →
  ∃ S', sources (run w es) !! i = Some S' ∧ grows S S'.
Proof.
  revert w S. induction es as [|e es IH]; intros w S HS.
  { by exists S. }
  destruct (sources_step e w i S HS) as (S1 & HS1 & [Hw1 Hg1]).
  destruct (IH _ _ HS1) as (S2 & HS2 & [Hw2 Hg2]).
  exists S2. split; [done|]. split; [congruence|by etrans].
Qed.

(** C8: the component keeps one drawing source for its whole life, the one
    its vector layer and every attached Draw interaction are bound to, and
    nothing clears it: over any sequence of events the features the source
    holds stay in it, in order, and each completed drawing adds its
    feature to it. *)
Theorem drawing_source_accumulates el w es :
  reachable el w →
  let w' := run w es in
  source (rendered w') = source (rendered w)
  ∧ (∀ M, M ∈ maps w' → VectorLayer (source (rendered w')) ∈ layers M)
  ∧ (∃ S S', sources w !! source (rendered w) = Some S
             ∧ sources w' !! source (rendered w) = Some S'
             ∧ getFeatures S `prefix_of` getFeatures S'
             ∧ ∀ f, f ∈ getFeatures S → f ∈ getFeatures S')
  ∧ (∀ d cs, attached d w' = true →
       draw_source <$> draws w' !! d = Some (source (rendered w'))
       ∧ ∃ S'', sources (step (DrawEnd d cs) w') !! source (rendered w')
                  = Some S''
                ∧ length (features w') ∈ getFeatures S'').
Proof.
  intros Hw w'.
  assert (reachable el w') as Hw' by by apply reachable_run.
  pose proof (reachable_invariant _ _ Hw) as Hinv.
  pose proof (reachable_invariant _ _ Hw') as Hinv'.
  destruct (inv_source _ _ Hinv) as [Hs _].
  destruct (inv_source _ _ Hinv') as [Hs' _].
  rewrite Hs, Hs'. split_and!; [done| | |].
  - rewrite (inv_maps _ _ Hinv').
    intros M ->%list_elem_of_singleton. cbn. repeat constructor.
  - destruct (inv_sources _ _ Hinv) as [S HS].
    destruct (sources_run es w 0 S HS) as (S' & HS' & _ & Hpre).
    exists S, S'. split_and!; [done..|].
    intros f Hf. by eapply elem_of_prefix.
  - intros d cs Hd.
    destruct (attached_invariant _ _ _ Hinv' Hd) as (Hm & _ & _ & HD).
    rewrite HD. split; [done|].
    destruct (finishDrawing_attached _ _ _ cs Hinv' Hd) as (g & _ & Hfin).
    destruct (inv_sources _ _ Hinv') as [S' HS'].
    rewrite step_mounted by done. cbn [handle]. rewrite Hfin.
    eexists. split.
    + destruct (sources_rerender
        (addFeature 0 (length (features w'))
           (setLastFeature (Some (length (features w')))
              (new_Feature g w').2))) as [->| ->];
        [|apply lookup_app_l_Some]; cbn;
        by rewrite list_lookup_alter_eq, HS'.
    + cbn. apply elem_of_app. right. constructor.
Qed.

(** *** Unmount *)

(** C10: whatever happened between mount and unmount, once the component is
    unmounted [setTarget(undefined)] has been called exactly once and the
    map has no target; as long as it was not unmounted, the call was not
    made and the map is still on its container. *)
Theorem unmount_detaches_once el es :
  let w := run (mount (number:=number) el) (es ++ [Unmount]) in
  (detaches (log w) = 1 ∧ target <$> maps w !! 0 = Some None)
  ∧ (Unmount ∉ es →
     detaches (log (run (mount (number:=number) el) es)) = 0
     ∧ target <$> maps (run (mount (number:=number) el) es) !! 0
         = Some (Some el)).
Proof.
  intros w.
  assert (∀ es, invariant el (run (mount (number:=number) el) es)) as Hinv.
  { intros es'. apply reachable_invariant, reachable_run. constructor. }
  split.
  - assert (mounted w = false) as Hm.
    { unfold w. rewrite run_snoc. apply mounted_Unmount. }
    destruct (Hinv (es ++ [Unmount])) as [_ _ _ _ Hmaps _ _ Hlog].
    fold w in Hmaps, Hlog. rewrite Hm in Hmaps, Hlog.
    by rewrite Hmaps, Hlog.
  - intros Hes.
    pose proof (mounted_run (mount (number:=number) el) es Hes) as Hm.
    change (mounted (mount (number:=number) el)) with true in Hm.
    destruct (Hinv es) as [_ _ _ _ Hmaps _ _ Hlog].
    rewrite Hm in Hmaps, Hlog.
    by rewrite Hmaps, Hlog.
Qed.

(** *** Further invariants *)

Arguments adds : simpl never.
Arguments removes : simpl never.

Lemma adds_snoc l c : adds (l ++ [c]) = adds l + (if is_add c then 1 else 0).
Proof.
  unfold adds. rewrite List.filter_app, length_app. cbn.
  by destruct (is_add c).
Qed.

Lemma removes_snoc l c :
  removes (l ++ [c]) = removes l + (if is_remove c then 1 else 0).
Proof.
  unfold removes. rewrite List.filter_app, length_app. cbn.
  by destruct (is_remove c).
Qed.

Lemma finishDrawing_not_attached d cs w :
  attached d w = false → finishDrawing d cs w = w.
Proof. intros Hd. unfold finishDrawing. by rewrite Hd. Qed.

Lemma measured_app fs F (txt : string) :
  measured fs txt → measured (fs ++ [F]) txt.
Proof.
  intros [->|(F' & g & HF & Hg & Hs)]; [by left|].
  right. exists F', g. split_and!; [|done..].
  apply elem_of_app. by left.
Qed.

Lemma last_seq_S n : last (seq 0 (S n)) = Some n.
Proof. by rewrite seq_S, last_snoc. Qed.

Lemma store_invariant_mount el :
  store_invariant (mount (number:=number) el).
Proof. split; cbn; try done; by constructor. Qed.

Lemma store_invariant_handle el e w :
  invariant el w → store_invariant w → store_invariant (handle e w).
Proof.
  intros Hinv [Hfs Hsrc Hlater Hlast Hds Hadds Hbal Htext].
  destruct e; cbn; [done| | | |done].
  - by split.
  - destruct (attached d w) eqn:Hd.
    2: { rewrite finishDrawing_not_attached by done. by split. }
    destruct (attached_invariant _ _ _ Hinv Hd) as (_ & _ & Ht & _).
    destruct (finishDrawing_attached _ _ _ cs Hinv Hd) as (g & Hg & ->).
    split; cbn; try done.
    + apply Forall_app. split; [done|]. constructor; [|done].
      exists g. split; [done|]. unfold drawn_kind.
      destruct (drawType (rendered w)); cbn in Hg; simplify_eq; cbn; auto.
    + rewrite list_lookup_alter_eq, Hsrc. cbn.
      by rewrite length_app, Nat.add_1_r, seq_S.
    + by destruct (sources w).
    + by rewrite length_app, Nat.add_1_r, last_seq_S.
    + by apply measured_app.
  - unfold handleMeasureClick.
    destruct (lastFeature (rendered w)) as [f|]; [|by split].
    split; cbn; try done.
    destruct (features w !! f) as [F|] eqn:HF; cbn; [|by left].
    destruct (getGeometry F) as [g|] eqn:HG; cbn; [|by left].
    repeat case_bool_decide; [| |by left].
    + right. exists F, g. split_and!; [by eapply list_elem_of_lookup_2|done|].
      by left.
    + right. exists F, g. split_and!; [by eapply list_elem_of_lookup_2|done|].
      by right.
Qed.

Lemma drop_1_snoc {A} (l : list A) x :
  is_Some (l !! 0) → drop 1 (l ++ [x]) = drop 1 l ++ [x].
Proof. intros [y Hy]. by destruct l. Qed.

Ltac count_calls :=
  rewrite ?adds_snoc, ?removes_snoc, ?length_alter, ?length_app; cbn; lia.

Lemma store_invariant_rerender el w :
  mounted w = true → invariant el w → store_invariant w →
  store_invariant (rerender w).
Proof.
  intros Hm Hinv Hst. unfold rerender. case_bool_decide as Heq; [done|].
  destruct Hinv as [[Hs1 Hs2] Hss Hmq Hmr Hmaps Hc Hi Hl].
  destruct Hst as [Hfs Hsrc Hlater Hlast Hds Hadds Hbal Htext].
  assert (Forall (λ S, S = {| wrapX := false; getFeatures := [] |})
            (drop 1 (sources w
                     ++ [{| wrapX := false; getFeatures := [] |}])))
    as Hlater'.
  { rewrite drop_1_snoc by done. apply Forall_app. split; [done|].
    by constructor. }
  assert ((sources w ++ [{| wrapX := false; getFeatures := [] |}]) !! 0
          = Some {| wrapX := false;
                    getFeatures := seq 0 (length (features w)) |})
    as Hsrc' by by apply lookup_app_l_Some.
  rewrite Hm in *. cbn.
  case_bool_decide as Hdeps; [by split|].
  unfold run_drawCleanup, drawEffect. cbn.
  destruct (drawCleanup w) as [[m d]|] eqn:Hdc; cbn in *; rewrite Hmq.
  - case_bool_decide as Hnone.
    + split; cbn; try done.
      * count_calls.
      * count_calls.
    + split; cbn; try done.
      * rewrite alter_snoc. apply Forall_app. split; [done|].
        constructor; [|done]. by rewrite Hs2.
      * count_calls.
      * count_calls.
  - case_bool_decide as Hnone.
    + split; cbn; rewrite ?Hdc; done.
    + split; cbn; try done.
      * rewrite alter_snoc. apply Forall_app. split; [done|].
        constructor; [|done]. by rewrite Hs2.
      * count_calls.
      * count_calls.
Qed.

Lemma store_invariant_unmount el w :
  mounted w = true → invariant el w → store_invariant w →
  store_invariant (unmount w).
Proof.
  intros Hm [_ _ _ _ _ Hc Hi _] [Hfs Hsrc Hlater Hlast Hds Hadds Hbal Htext].
  rewrite Hm in *.
  unfold unmount, run_initCleanup. rewrite Hi.
  unfold run_drawCleanup. cbn.
  destruct (drawCleanup w) as [[m d]|] eqn:Hdc; cbn in *.
  - split; cbn; try done.
    + count_calls.
    + count_calls.
  - split; cbn; rewrite ?Hdc; try done.
    + count_calls.
    + count_calls.
Qed.

Lemma store_invariant_step el e w :
  invariant el w → store_invariant w → store_invariant (step e w).
Proof.
  intros Hinv Hst. destruct (mounted w) eqn:Hm.
  - rewrite step_mounted by done.
    destruct e; try by eapply store_invariant_unmount.
    all: eapply store_invariant_rerender;
      [by rewrite mounted_handle|by apply invariant_handle
      |by eapply store_invariant_handle].
  - by rewrite step_unmounted.
Qed.

Lemma reachable_store_invariant el w : reachable el w → store_invariant w.
Proof.
  induction 1 as [|e w Hw IH]; [apply store_invariant_mount|].
  eapply store_invariant_step; [by apply reachable_invariant|done].
Qed.

(** *** Further properties of the stores *)

Lemma last_seq_lt n f : last (seq 0 n) = Some f → f < n.
Proof.
  destruct n as [|n]; [done|]. rewrite last_seq_S. intros [= ->]. lia.
Qed.

(** X7: the drawing source holds every feature ever made, once and in the
    order of drawing, and the last-drawn feature of the state is the last
    of them; it always has a geometry, a Point, LineString or Polygon, so
    [getGeometry()] is never undefined in the measure handler. *)
Theorem last_feature_is_last_of_source el w :
  reachable el w →
  ∃ S, sources w !! source (rendered w) = Some S
       ∧ getFeatures S = seq 0 (length (features w))
       ∧ lastFeature (rendered w) = last (getFeatures S)
       ∧ ∀ f, lastFeature (rendered w) = Some f →
              ∃ g, features w !! f = Some {| getGeometry := Some g |}
                   ∧ drawn_kind g.
Proof.
  intros Hw.
  destruct (reachable_store_invariant _ _ Hw) as [Hfs Hsrc _ Hlast _ _ _ _].
  destruct (reachable_hooks_invariant _ _ Hw) as [_ Hsync _ _].
  destruct (inv_source _ _ (reachable_invariant _ _ Hw)) as [-> _].
  eexists. split_and!; [done|done|by rewrite Hsync|].
  intros f Hf. rewrite Hsync, Hlast in Hf. apply last_seq_lt in Hf.
  destruct (lookup_lt_is_Some_2 _ _ Hf) as [F HF].
  destruct (proj1 (Forall_lookup _ _) Hfs _ _ HF) as (g & Hg & Hk).
  exists g. split; [|done]. rewrite HF. destruct F. cbn in Hg. by subst.
Qed.

(** X8: only the source of the state ever holds features: the
    VectorSource objects the later renders construct stay empty. *)
Theorem later_sources_stay_empty el w i :
  reachable el w →
  i ≠ source (rendered w) →
  i < length (sources w) →
  sources w !! i = Some {| wrapX := false; getFeatures := [] |}.
Proof.
  intros Hw Hi Hlt.
  destruct (reachable_store_invariant _ _ Hw) as [_ _ Hlater _ _ _ _ _].
  destruct (inv_source _ _ (reachable_invariant _ _ Hw)) as [Hs _].
  rewrite Hs in Hi. destruct i as [|i]; [done|].
  destruct (lookup_lt_is_Some_2 _ _ Hlt) as [S HS]. rewrite HS. f_equal.
  apply (proj1 (Forall_lookup _ _) Hlater i). by rewrite lookup_drop.
Qed.


(** X10: the measurement text is always the empty text or the area of a
    Polygon or the length of a LineString among the features drawn so far
    (not always the last one), and the paragraph shows it exactly when it
    is not empty. *)
Theorem measurement_of_a_drawn_feature el w :
  reachable el w →
  measured (features w) (measurement (rendered w))
  ∧ (measurement (rendered w) = "" → paragraph (render (rendered w)) = None)
  ∧ (measurement (rendered w) ≠ "" →
     paragraph (render (rendered w)) = Some (measurement (rendered w))).
Proof.
  intros Hw.
  destruct (reachable_store_invariant _ _ Hw) as [_ _ _ _ _ _ _ Htext].
  destruct (reachable_hooks_invariant _ _ Hw) as [_ _ Hsync _].
  rewrite Hsync. split_and!; [done| |]; intros Hx; cbn; rewrite Hsync.
  - by rewrite bool_decide_eq_true_2.
  - by rewrite bool_decide_eq_false_2.
Qed.

(** X11: every Draw object the component ever made is bound to the source
    of the state, is of a mode other than "None", and has the drawend
    listener registered exactly once. *)
Theorem draw_objects_of_the_effect el w d D :
  reachable el w →
  draws w !! d = Some D →
  draw_source D = source (rendered w)
  ∧ draw_type D ≠ GeometryType.None
  ∧ drawend D = [SetLastFeature].
Proof.
  intros Hw HD.
  destruct (reachable_store_invariant _ _ Hw) as [_ _ _ _ Hds _ _ _].
  destruct (inv_source _ _ (reachable_invariant _ _ Hw)) as [-> _].
  apply (proj1 (Forall_lookup _ _) Hds _ _ HD).
Qed.


(** *** Further properties of the handlers *)





(** In a reachable world with the map rendered nothing is queued. *)
Lemma reachable_settled el w :
  reachable el w → map (rendered w) ≠ None → rendered w = queued w.
Proof.
  intros Hw Hmap.
  destruct (reachable_invariant _ _ Hw) as [[Hs1 Hs2] _ Hmq Hmr _ _ _ _].
  destruct (reachable_hooks_invariant _ _ Hw) as [Ht Hf Hx _].
  destruct Hmr as [?|Hmr]; [done|].
  destruct (rendered w), (queued w); cbn in *. congruence.
Qed.



(** X3: a change of mode keeps the last-drawn feature, the measurement
    text, the features and what the drawing source holds. *)
Theorem mode_change_keeps_drawings el w v :
  reachable el w →
  let w' := step (Change v) w in
  lastFeature (rendered w') = lastFeature (rendered w)
  ∧ measurement (rendered w') = measurement (rendered w)
  ∧ features w' = features w
  ∧ sources w' !! source (rendered w') = sources w !! source (rendered w).
Proof.
  intros Hw w'.
  assert (reachable el w') as Hw' by by constructor.
  destruct (reachable_hooks_invariant _ _ Hw) as [_ Hf Hx _].
  pose proof (st_source _ (reachable_store_invariant _ _ Hw)) as Hsrc.
  pose proof (st_source _ (reachable_store_invariant _ _ Hw')) as Hsrc'.
  destruct (inv_source _ _ (reachable_invariant _ _ Hw)) as [-> _].
  destruct (inv_source _ _ (reachable_invariant _ _ Hw')) as [-> _].
  assert (features w' = features w) as Hfs.
  { unfold w', step. destruct (mounted w); [|done].
    by rewrite features_rerender. }
  split_and!; [..|done|by rewrite Hsrc, Hsrc', Hfs].
  - unfold w', step. destruct (mounted w); [|done].
    by rewrite rendered_rerender.
  - unfold w', step. destruct (mounted w); [|done].
    by rewrite rendered_rerender.
Qed.

Lemma finishDrawing_frame d cs w :
  rendered (finishDrawing d cs w) = rendered w
  ∧ log (finishDrawing d cs w) = log w
  ∧ maps (finishDrawing d cs w) = maps w
  ∧ drawDeps (queued (finishDrawing d cs w)) = drawDeps (queued w).
Proof.
  unfold finishDrawing. destruct (attached d w); [|done].
  destruct (draws w !! d) as [D|]; [|done].
  destruct (sketchGeometry _ cs) as [g|]; [|done].
  cbn. rewrite run_listeners. by destruct (drawend D).
Qed.

Lemma rerender_same_deps w :
  drawDeps (rendered w) = drawDeps (queued w) →
  log (rerender w) = log w ∧ maps (rerender w) = maps w.
Proof. intros Hdeps. rerender_cases w; done. Qed.

(** X2: completing a drawing leaves the measurement text and the mode as
    they are (the text shown is not refreshed before the next measure),
    and once the map is rendered it causes no call on the map: the
    interaction stays attached for the next drawing. *)
Theorem drawing_keeps_measurement el w d cs :
  reachable el w →
  let w' := step (DrawEnd d cs) w in
  measurement (rendered w') = measurement (rendered w)
  ∧ drawType (rendered w') = drawType (rendered w)
  ∧ (map (rendered w) ≠ None →
     log w' = log w ∧ attached_draws w' = attached_draws w).
Proof.
  intros Hw w'.
  destruct (reachable_hooks_invariant _ _ Hw) as [Ht _ Hx _].
  unfold w', step. destruct (mounted w); [|done].
  rewrite rendered_rerender. cbn [handle].
  destruct (finishDrawing_frame d cs w) as (Hr & Hl & Hm & Hd).
  split_and!.
  - by destruct (queued_finishDrawing d cs w) as [->|[f ->]].
  - by destruct (queued_finishDrawing d cs w) as [->|[f ->]].
  - intros Hmap.
    destruct (rerender_same_deps (finishDrawing d cs w)) as [Hl' Hm'].
    { rewrite Hr, Hd. by rewrite (reachable_settled el w). }
    unfold attached_draws. by rewrite Hl', Hm', Hl, Hm.
Qed.

(** X1: the text measured right after a completed drawing is the one of
    the drawing mode, and the button rendered in that mode announces it:
    the area under "Measure Area" for Polygon, the length under
    "Measure Length" for LineString, and the empty text, with no button,
    for Point. *)
Theorem draw_then_measure el w d cs :
  reachable el w →
  attached d w = true →
  let w1 := step (DrawEnd d cs) w in
  let txt := measurement (rendered (step Click w1)) in
  match drawType (rendered w) with
  | GeometryType.Polygon =>
      txt = "Area: "
            +:+ millify (getArea {| constructor := Polygon;
                                    coordinates := cs |})
            +:+ " square meters"
      ∧ button (render (rendered w1)) = Some "Measure Area"
  | GeometryType.LineString =>
      txt = "Length: "
            +:+ millify (getLength {| constructor := LineString;
                                      coordinates := cs |})
            +:+ " meters"
      ∧ button (render (rendered w1)) = Some "Measure Length"
  | GeometryType.Point =>
      txt = "" ∧ button (render (rendered w1)) = None
  | GeometryType.None => False
  end.
Proof.
  intros Hw Hd w1 txt.
  pose proof (reachable_invariant _ _ Hw) as Hinv.
  destruct (reachable_hooks_invariant _ _ Hw) as [Hsync _ _ _].
  destruct (attached_invariant _ _ _ Hinv Hd) as (Hm & _ & Hnone & _).
  destruct (finishDrawing_attached _ _ _ cs Hinv Hd) as (g & Hg & Hfin).
  assert (lastFeature (rendered w1) = Some (length (features w))) as Hlf.
  { unfold w1. rewrite step_mounted by done.
    rewrite rendered_rerender. cbn. by rewrite Hfin. }
  assert (features w1 !! length (features w)
          = Some {| getGeometry := Some g |}) as HF.
  { unfold w1. rewrite step_mounted by done.
    rewrite features_rerender. cbn. rewrite Hfin. cbn.
    apply snoc_lookup. }
  assert (drawType (rendered w1) = drawType (rendered w)) as Ht1.
  { unfold w1. rewrite step_mounted by done.
    rewrite rendered_rerender. cbn. by rewrite Hfin. }
  assert (mounted w1 = true) as Hm1.
  { unfold w1. by rewrite mounted_step. }
  unfold txt. rewrite (measurement_Click w1 _ _ Hm1 Hlf HF).
  unfold render. cbn [button]. rewrite Ht1.
  destruct (drawType (rendered w)); cbn in Hg; simplify_eq; done.
Qed.

(** X12: once the map is rendered, a change to another mode removes the
    attached interaction and, unless the new mode is "None", adds one new
    Draw object of the new mode, bound to the source of the state and
    listening for drawend; for "None" no object is made and nothing is
    attached. *)
Theorem mode_change_makes_new_draw el w v :
  reachable el w →
  mounted w = true →
  map (rendered w) ≠ None →
  v ≠ drawType (rendered w) →
  let w' := step (Change v) w in
  drawType (rendered w') = v
  ∧ match v with
    | GeometryType.None =>
        attached_draws w' = []
        ∧ draws w' = draws w
        ∧ log w' = log w ++ (RemoveInteraction 0 <$> attached_draws w)
    | _ =>
        attached_draws w' = [length (draws w)]
        ∧ draws w' = draws w ++ [{| draw_source := source (rendered w);
                                    draw_type := v;
                                    drawend := [SetLastFeature] |}]
        ∧ log w' = log w ++ (RemoveInteraction 0 <$> attached_draws w)
                         ++ [AddInteraction 0 (length (draws w))]
    end.
Proof.
  intros Hw Hm Hmap Hv w'.
  pose proof (reachable_invariant _ _ Hw) as Hinv.
  pose proof (reachable_settled _ _ Hw Hmap) as Hset.
  rewrite (attached_draws_invariant el w) by done.
  assert (invariant el w') as Hinv' by by apply invariant_step.
  rewrite (attached_draws_invariant el w') by done.
  destruct Hinv as [[Hs1 Hs2] _ Hmq _ Hmaps Hc _ _].
  rewrite Hm in *. unfold w'. rewrite step_mounted by done.
  cbn [handle]. unfold rerender.
  rewrite bool_decide_eq_false_2.
  2: { cbn. rewrite Hset in *. intros Heq.
       apply (f_equal drawType) in Heq. cbn in Heq. congruence. }
  cbn. rewrite bool_decide_eq_false_2.
  2: { unfold drawDeps. cbn. rewrite Hset in *. congruence. }
  unfold run_drawCleanup, drawEffect. cbn. rewrite Hmq, Hs1, Hs2.
  destruct (drawCleanup w) as [[m d]|] eqn:Hdc; cbn in *.
  - destruct Hc as (-> & _).
    destruct v; case_bool_decide; try done; cbn;
      rewrite ?alter_snoc, <-?(assoc_L (++)); cbn; done.
  - destruct v; case_bool_decide; try done; cbn;
      rewrite ?alter_snoc, ?app_nil_r, ?Hdc; cbn; done.
Qed.

End Properties.

(** ** The properties on the sample worlds *)

(** The square drawn in Polygon mode measures 10K square meters. *)
Lemma measure_polygon_witness :
  measurement (rendered (step Click (run (mount 7) sample_square_events)))
    = "Area: 10K square meters".
Proof.
  change "Area: 10K square meters"
    with ("Area: "
          +:+ millify (getArea {| constructor := Polygon;
                                  coordinates := sample_square |})
          +:+ " square meters").
  apply (measure_polygon (run (mount 7) sample_square_events) 0
           {| getGeometry := Some {| constructor := Polygon;
                                     coordinates := sample_square |} |}
           {| constructor := Polygon; coordinates := sample_square |});
    vm_compute; reflexivity.
Defined.

(** C1 as stated fails: with a line measured, then a point drawn, the
    measure button (rendered again in LineString mode) replaces the
    displayed "Length" text by the empty text. *)
Lemma measure_point_clears_text :
  let w := run (mount 7) sample_point_events in
  enabled_run (mount 7) (sample_point_events ++ [Click]) = true
  ∧ lastFeature (rendered w) = Some 1
  ∧ features w !! 1 ≫= getGeometry
      = Some {| constructor := Point; coordinates := [[5; 5]]%Z |}
  ∧ measurement (rendered w) = "Length: 7K meters"
  ∧ measurement (rendered (step Click w)) = ""
  ∧ measurement (rendered (step Click w)) ≠ measurement (rendered w).
Proof. by vm_compute. Qed.

(** With the point as last-drawn feature the measurement text is empty. *)
Lemma measure_other_witness :
  measurement (rendered (step Click (run (mount 7) sample_point_events)))
    = ""
  ∧ paragraph (render (rendered
      (step Click (run (mount 7) sample_point_events)))) = None.
Proof.
  apply (measure_other (run (mount 7) sample_point_events) 1
           {| getGeometry := Some {| constructor := Point;
                                     coordinates := [[5; 5]]%Z |} |}
           {| constructor := Point; coordinates := [[5; 5]]%Z |});
    [vm_compute; reflexivity..|discriminate|discriminate].
Defined.

(** Before any drawing a click changes nothing. *)
Lemma measure_without_drawing_witness :
  handleMeasureClick sample_mounted = sample_mounted
  ∧ step Click sample_mounted = step Flush sample_mounted
  ∧ (rendered sample_mounted = queued sample_mounted →
     step Click sample_mounted = sample_mounted)
  ∧ measurement (rendered sample_mounted) = ""
  ∧ measurement (rendered (step Click sample_mounted)) = "".
Proof.
  apply (measure_without_drawing 7 sample_mounted).
  - apply reachable_step, reachable_mount.
  - vm_compute; reflexivity.
Defined.

(** The sample line, drawn with the first Draw interaction and measured. *)
Lemma measure_line_drawing_witness :
  let g := {| constructor := LineString; coordinates := sample_line |} in
  let w1 := step (DrawEnd 0 sample_line) sample_mounted in
  (∃ f, lastFeature (rendered w1) = Some f
        ∧ features w1 !! f = Some {| getGeometry := Some g |})
  ∧ measurement (rendered (step Click w1)) =
      "Length: " +:+ millify (getLength g) +:+ " meters"
  ∧ String.prefix "Area" (measurement (rendered (step Click w1))) = false.
Proof.
  apply (measure_line_drawing 7 sample_mounted 0 sample_line).
  - apply reachable_step, reachable_mount.
  - vm_compute; reflexivity.
  - vm_compute; reflexivity.
Defined.

(** One interaction at most after the mode went to Point and back. *)
Lemma one_draw_interaction_witness :
  let w := run (mount 7) sample_point_events in
  length (attached_draws w) ≤ 1
  ∧ (∀ d, d ∈ attached_draws w →
          draw_type <$> draws w !! d = Some (drawType (rendered w)))
  ∧ (drawType (rendered w) = GeometryType.None ∨ map (rendered w) = None →
     attached_draws w = [])
  ∧ (∀ v, let w' := step (Change v) w in
          length (attached_draws w') ≤ 1
          ∧ ((log w' = log w ∧ attached_draws w' = attached_draws w)
             ∨ log w' =
                 log w ++ (RemoveInteraction 0 <$> attached_draws w)
                       ++ (AddInteraction 0 <$> attached_draws w'))).
Proof.
  apply (one_draw_interaction 7 (run (mount 7) sample_point_events)).
  apply reachable_run, reachable_mount.
Defined.

(** C7 as stated fails: "None" is not among the options of the select, and
    a change event with that value cannot occur. *)
Lemma select_lacks_None :
  select_options (render (rendered sample_mounted))
    = [GeometryType.LineString; GeometryType.Point; GeometryType.Polygon]
  ∧ (GeometryType.None ∉ select_options (render (rendered sample_mounted)))
  ∧ enabled sample_mounted (Change GeometryType.None) = false
  ∧ ¬ (∀ v, v ∈ select_options (render (rendered sample_mounted))).
Proof.
  pose proof (None_not_offered (rendered sample_mounted)) as Hno.
  split_and!; [done..|]. intros Hall. apply Hno, Hall.
Qed.

(** The select after the events of the point scenario. *)
Lemma select_offers_three_modes_witness :
  let w := run (mount 7) sample_point_events in
  select_options (render (rendered w)) =
    [GeometryType.LineString; GeometryType.Point; GeometryType.Polygon]
  ∧ (mounted w = true →
     ∀ v, v ∈ select_options (render (rendered w)) →
          enabled w (Change v) = true
          ∧ drawType (rendered (step (Change v) w)) = v)
  ∧ enabled w (Change GeometryType.None) = false
  ∧ drawType (rendered w) ≠ GeometryType.None.
Proof.
  apply (select_offers_three_modes 7 sample_point_events).
  vm_compute; reflexivity.
Defined.

(** The line stays in the source when a square is drawn in Polygon mode. *)
Lemma drawing_source_accumulates_witness :
  let w := run (mount 7) sample_line_events in
  let w' := run w [Change GeometryType.Polygon; DrawEnd 1 sample_square] in
  source (rendered w') = source (rendered w)
  ∧ (∀ M, M ∈ maps w' → VectorLayer (source (rendered w')) ∈ layers M)
  ∧ (∃ S S', sources w !! source (rendered w) = Some S
             ∧ sources w' !! source (rendered w) = Some S'
             ∧ getFeatures S `prefix_of` getFeatures S'
             ∧ ∀ f, f ∈ getFeatures S → f ∈ getFeatures S')
  ∧ (∀ d cs, attached d w' = true →
       draw_source <$> draws w' !! d = Some (source (rendered w'))
       ∧ ∃ S'', sources (step (DrawEnd d cs) w') !! source (rendered w')
                  = Some S''
                ∧ length (features w') ∈ getFeatures S'').
Proof.
  apply (drawing_source_accumulates 7 (run (mount 7) sample_line_events)
           [Change GeometryType.Polygon; DrawEnd 1 sample_square]).
  apply reachable_run, reachable_mount.
Defined.

(** The line measured in LineString mode and in Polygon mode. *)
Lemma measure_ignores_mode_witness :
  let w1 := run (mount 7) sample_line_events in
  let w2 := step (Change GeometryType.Polygon) w1 in
  drawType (rendered w1) ≠ drawType (rendered w2)
  ∧ measurement (rendered (step Click w1))
      = measurement (rendered (step Click w2))
  ∧ measurement (rendered (step Click w2)) = "Length: 7K meters".
Proof.
  split; [vm_compute; discriminate|]. split; [|vm_compute; reflexivity].
  refine (proj1 (measure_ignores_mode 7 7
                   (run (mount 7) sample_line_events)
                   (step (Change GeometryType.Polygon)
                      (run (mount 7) sample_line_events))
                   _ _ _ _ _ _)).
  - apply reachable_run, reachable_mount.
  - apply reachable_step, reachable_run, reachable_mount.
  - vm_compute; reflexivity.
  - vm_compute; reflexivity.
  - vm_compute; reflexivity.
  - intros f Hf. vm_compute; reflexivity.
Defined.

(** No detach during the point scenario, one after its unmount. *)
Lemma unmount_detaches_once_witness :
  detaches (log (run (mount (number:=Z) 7) sample_point_events)) = 0
  ∧ target <$> maps (run (mount (number:=Z) 7) sample_point_events) !! 0
      = Some (Some 7)
  ∧ detaches (log (run (mount (number:=Z) 7)
                     (sample_point_events ++ [Unmount]))) = 1.
Proof.
  destruct (unmount_detaches_once (number:=Z) 7 sample_point_events)
    as [[Hone _] Hnone].
  destruct Hnone as [Hzero Htarget].
  - unfold sample_point_events.
    repeat (apply not_elem_of_cons; split; [discriminate|]).
    apply not_elem_of_nil.
  - split_and!; assumption.
Defined.

(** ** The further properties on the sample worlds *)

(** The drawing source after a line and a point were drawn. *)
Lemma last_feature_is_last_of_source_witness :
  let w := run (mount 7) sample_point_events in
  ∃ S, sources w !! source (rendered w) = Some S
       ∧ getFeatures S = seq 0 (length (features w))
       ∧ lastFeature (rendered w) = last (getFeatures S)
       ∧ ∀ f, lastFeature (rendered w) = Some f →
              ∃ g, features w !! f = Some {| getGeometry := Some g |}
                   ∧ drawn_kind g.
Proof.
  apply (last_feature_is_last_of_source 7
           (run (mount 7) sample_point_events)).
  apply reachable_run, reachable_mount.
Defined.

(** The source the fourth render constructed. *)
Lemma later_sources_stay_empty_witness :
  sources (run (mount 7) sample_point_events) !! 3
    = Some {| wrapX := false; getFeatures := [] |}.
Proof.
  apply (later_sources_stay_empty 7 (run (mount 7) sample_point_events) 3).
  - apply reachable_run, reachable_mount.
  - vm_compute; discriminate.
  - vm_compute; lia.
Defined.


(** The text of the line is still shown after the point was drawn. *)
Lemma measurement_of_a_drawn_feature_witness :
  let w := run (mount 7) sample_point_events in
  measured (features w) (measurement (rendered w))
  ∧ (measurement (rendered w) = "" → paragraph (render (rendered w)) = None)
  ∧ (measurement (rendered w) ≠ "" →
     paragraph (render (rendered w)) = Some (measurement (rendered w))).
Proof.
  apply (measurement_of_a_drawn_feature 7
           (run (mount 7) sample_point_events)).
  apply reachable_run, reachable_mount.
Defined.

(** The Draw object made for the Point mode. *)
Lemma draw_objects_of_the_effect_witness :
  let w := run (mount 7) sample_point_events in
  let D := {| draw_source := 0; draw_type := GeometryType.Point;
              drawend := [SetLastFeature] |} in
  draw_source D = source (rendered w)
  ∧ draw_type D ≠ GeometryType.None
  ∧ drawend D = [SetLastFeature].
Proof.
  apply (draw_objects_of_the_effect 7
           (run (mount 7) sample_point_events) 1).
  - apply reachable_run, reachable_mount.
  - vm_compute; reflexivity.
Defined.




(** The line survives the change to Polygon mode. *)
Lemma mode_change_keeps_drawings_witness :
  let w := run (mount 7) sample_line_events in
  let w' := step (Change GeometryType.Polygon) w in
  lastFeature (rendered w') = lastFeature (rendered w)
  ∧ measurement (rendered w') = measurement (rendered w)
  ∧ features w' = features w
  ∧ sources w' !! source (rendered w') = sources w !! source (rendered w).
Proof.
  apply (mode_change_keeps_drawings 7 (run (mount 7) sample_line_events)
           GeometryType.Polygon).
  apply reachable_run, reachable_mount.
Defined.

(** The point drawn while the text of the line is shown. *)
Lemma drawing_keeps_measurement_witness :
  let w := run (mount 7) (take 4 sample_point_events) in
  let w' := step (DrawEnd 1 [[5; 5]]%Z) w in
  measurement (rendered w') = measurement (rendered w)
  ∧ drawType (rendered w') = drawType (rendered w)
  ∧ (map (rendered w) ≠ None →
     log w' = log w ∧ attached_draws w' = attached_draws w).
Proof.
  apply (drawing_keeps_measurement 7
           (run (mount 7) (take 4 sample_point_events)) 1 [[5; 5]]%Z).
  apply reachable_run, reachable_mount.
Defined.

(** The square drawn and measured in Polygon mode. *)
Lemma draw_then_measure_witness :
  let w := run (mount 7) [Flush; Change GeometryType.Polygon] in
  let w1 := step (DrawEnd 1 sample_square) w in
  measurement (rendered (step Click w1)) =
    "Area: "
    +:+ millify (getArea {| constructor := Polygon;
                            coordinates := sample_square |})
    +:+ " square meters"
  ∧ button (render (rendered w1)) = Some "Measure Area".
Proof.
  apply (draw_then_measure 7
           (run (mount 7) [Flush; Change GeometryType.Polygon])
           1 sample_square).
  - apply reachable_run, reachable_mount.
  - vm_compute; reflexivity.
Defined.

(** The change from LineString to Polygon after a line was drawn. *)
Lemma mode_change_makes_new_draw_witness :
  let w := run (mount 7) sample_line_events in
  let w' := step (Change GeometryType.Polygon) w in
  drawType (rendered w') = GeometryType.Polygon
  ∧ attached_draws w' = [length (draws w)]
  ∧ draws w' = draws w ++ [{| draw_source := source (rendered w);
                              draw_type := GeometryType.Polygon;
                              drawend := [SetLastFeature] |}]
  ∧ log w' = log w ++ (RemoveInteraction 0 <$> attached_draws w)
                   ++ [AddInteraction 0 (length (draws w))].
Proof.
  apply (mode_change_makes_new_draw 7 (run (mount 7) sample_line_events)
           GeometryType.Polygon).
  - apply reachable_run, reachable_mount.
  - vm_compute; reflexivity.
  - vm_compute; discriminate.
  - vm_compute; discriminate.
Defined.
